(** * Tic Tac Toe front end (src/frontend/src/App.js): a shallow embedding

    The game logic of [App.js] is modelled over a small model of the
    JavaScript values it handles.  A game board is a JS array of cells; a cell
    of a board created locally is [null], ["X"] or ["O"], but a board loaded
    from the optional backend is whatever JSON the server returned, so cells
    range over all JSON values (plus [undefined] for holes and missing
    properties). *)

From Stdlib Require Import List String Ascii ZArith NArith Bool Lia.
Import ListNotations.
Set Warnings "-register-all".
Open Scope list_scope.
Open Scope string_scope.

(** ** JavaScript values *)

(** JSON values as produced by [JSON.parse], together with [undefined].
    Numbers are modelled by integers: every JSON number is finite, which is
    all [Number.isFinite] observes, and the code only compares them, tests
    their truthiness and prints them. *)
Inductive jval : Type :=
| JUndef
| JNull
| JBool (b : bool)
| JNum (n : Z)
| JStr (s : string)
| JArr (l : list jval)
| JObj (fields : list (string * jval)).

(** JS truthiness ([Boolean(v)], [if (v)], [v && ...]). *)
Definition truthy (v : jval) : bool :=
  match v with
  | JUndef | JNull => false
  | JBool b => b
  | JNum n => negb (Z.eqb n 0)
  | JStr s => negb (String.eqb s "")
  | JArr _ | JObj _ => true
  end.

(** Strict equality [===].  Arrays and objects compare by reference; every
    array or object that [JSON.parse] builds is a fresh reference, so two of
    them are never [===]. *)
Definition strict_eq (v w : jval) : bool :=
  match v, w with
  | JUndef, JUndef => true
  | JNull, JNull => true
  | JBool a, JBool b => Bool.eqb a b
  | JNum a, JNum b => Z.eqb a b
  | JStr a, JStr b => String.eqb a b
  | _, _ => false
  end.

(** Nullish coalescing [a ?? b]. *)
Definition nullish_or (a b : jval) : jval :=
  match a with
  | JUndef | JNull => b
  | _ => a
  end.

(** Property read [v.k] on a value that is not [null]/[undefined]:
    [JSON.parse] keeps the last of duplicate keys; other values have none of
    the properties the code reads. *)
Definition get_field (v : jval) (k : string) : jval :=
  match v with
  | JObj fs =>
      fold_left (fun acc kv => if String.eqb (fst kv) k then snd kv else acc)
        fs JUndef
  | _ => JUndef
  end.

(** Array read [arr[i]]: [undefined] out of range (and for holes). *)
Definition at_ (board : list jval) (i : nat) : jval :=
  match nth_error board i with
  | Some v => v
  | None => JUndef
  end.

(** Array write [arr[i] = v]: in range it replaces the cell; past the end
    the array grows, the new slots before [i] being holes. *)
Fixpoint js_set (l : list jval) (i : nat) (v : jval) : list jval :=
  match l, i with
  | [], O => [v]
  | [], S i' => JUndef :: js_set [] i' v
  | _ :: r, O => v :: r
  | x :: r, S i' => x :: js_set r i' v
  end.

(** Decimal text of a number, for template literals. *)
Definition digit_char (d : N) : ascii :=
  ascii_of_N (48 + d).

Fixpoint digits_of (fuel : nat) (n : N) (acc : string) : string :=
  match fuel with
  | O => acc
  | S f =>
      let acc' := String (digit_char (N.modulo n 10)) acc in
      if N.ltb n 10 then acc' else digits_of f (N.div n 10) acc'
  end.

Definition N_to_dec (n : N) : string :=
  digits_of (S (N.to_nat (N.log2 n))) n "".

Definition Z_to_dec (z : Z) : string :=
  match z with
  | Zneg p => "-" ++ N_to_dec (Npos p)
  | _ => N_to_dec (Z.to_N z)
  end.

(** String conversion [`${v}`]: arrays join their elements with commas,
    [null]/[undefined] elements printing as the empty string. *)
Fixpoint to_str (v : jval) : string :=
  match v with
  | JUndef => "undefined"
  | JNull => "null"
  | JBool true => "true"
  | JBool false => "false"
  | JNum n => Z_to_dec n
  | JStr s => s
  | JArr l =>
      (fix items (l : list jval) : string :=
         match l with
         | [] => ""
         | x :: r =>
             let sx := match x with JUndef | JNull => "" | _ => to_str x end in
             match r with
             | [] => sx
             | _ => sx ++ "," ++ items r
             end
         end) l
  | JObj _ => "[object Object]"
  end.

(** ** Game state *)

(** [nextPlayer] only ever holds ["X"] or ["O"]: it is set to ["X"] on
    creation, flipped on a move, and normalised on load. *)
Inductive player : Type := PX | PO.

Definition player_str (p : player) : string :=
  match p with PX => "X" | PO => "O" end.

Record game : Type := mkGame {
  board : list jval;
  nextPlayer : player;
  status : string;
  winner : jval;
  isDraw : bool;
  moves : Z;
  updatedAt : jval
}.

(** [createEmptyGameState]; [now] is [new Date().toISOString()]. *)
Definition createEmptyGameState (now : string) : game :=
  {| board := repeat JNull 9;
     nextPlayer := PX;
     status := "Next player: X";
     winner := JNull;
     isDraw := false;
     moves := 0;
     updatedAt := JStr now |}.

(** ** calculateWinner *)

Definition lines : list (nat * nat * nat) :=
  [ (0, 1, 2); (3, 4, 5); (6, 7, 8);
    (0, 3, 6); (1, 4, 7); (2, 5, 8);
    (0, 4, 8); (2, 4, 6) ].

(** The test of one iteration: [v && v === board[b] && v === board[c]]
    with [v = board[a]]. *)
Definition line_won (board : list jval) (t : nat * nat * nat) : bool :=
  let '(a, b, c) := t in
  let v := at_ board a in
  truthy v && strict_eq v (at_ board b) && strict_eq v (at_ board c).

(** The [for ... of lines] loop with its early [return v]. *)
Fixpoint scan_lines (board : list jval) (ls : list (nat * nat * nat)) : jval :=
  match ls with
  | [] => JNull
  | t :: rest =>
      if line_won board t then (let '(a, _, _) := t in at_ board a)
      else scan_lines board rest
  end.

Definition calculateWinner (board : list jval) : jval :=
  scan_lines board lines.

(** ** deriveStatus *)

Record derived : Type := mkDerived {
  d_winner : jval;
  d_isDraw : bool;
  d_moves : Z;
  d_status : string
}.

Definition deriveStatus (board : list jval) (np : player) : derived :=
  let w := calculateWinner board in
  let mv := Z.of_nat (List.length (filter truthy board)) in
  let draw := negb (truthy w) && Z.eqb mv 9 in
  if truthy w then
    {| d_winner := w; d_isDraw := false; d_moves := mv;
       d_status := "Winner: " ++ to_str w |}
  else if draw then
    {| d_winner := JNull; d_isDraw := true; d_moves := mv;
       d_status := "Draw" |}
  else
    {| d_winner := JNull; d_isDraw := false; d_moves := mv;
       d_status := "Next player: " ++ player_str np |}.

(** ** handleSquareClick and handleReset *)

(** [canPlay], computed at render time from the current [game]. *)
Definition canPlay (g : game) : bool :=
  negb (truthy (winner g)) && negb (isDraw g).

(** [handleSquareClick(index)]: [None] when it returns before [setGame]
    (the state is kept), [Some g'] when it calls [setGame(g')].  [now] is
    the timestamp of [new Date().toISOString()]. *)
Definition handleSquareClick (g : game) (index : nat) (now : string)
  : option game :=
  if negb (canPlay g) then None
  else if truthy (at_ (board g) index) then None
  else
    let nextBoard := js_set (board g) index (JStr (player_str (nextPlayer g))) in
    let np := if String.eqb (player_str (nextPlayer g)) "X" then PO else PX in
    let d := deriveStatus nextBoard np in
    Some {| board := nextBoard;
            nextPlayer := np;
            status := d_status d;
            winner := d_winner d;
            isDraw := d_isDraw d;
            moves := d_moves d;
            updatedAt := JStr now |}.

(** The game state after a click. *)
Definition click_state (g : game) (index : nat) (now : string) : game :=
  match handleSquareClick g index now with
  | Some g' => g'
  | None => g
  end.

Definition handleReset (now : string) : game :=
  createEmptyGameState now.

(** ** The optional API client *)

(** Completion of an awaited promise: resolved with a value, or rejected
    (a thrown error). *)
Inductive outcome (A : Type) : Type :=
| Resolved (a : A)
| Rejected (e : jval).
Arguments Resolved {A} a.
Arguments Rejected {A} e.

Definition bind {A B : Type} (m : outcome A) (k : A -> outcome B) : outcome B :=
  match m with
  | Resolved a => k a
  | Rejected e => Rejected e
  end.

Notation "x <- m ;; k" := (bind m (fun x => k))
  (at level 61, m at next level, right associativity).

(** [try { body } catch (_e) { handler }]. *)
Definition try_catch {A : Type} (body : outcome A) (handler : jval -> outcome A)
  : outcome A :=
  match body with
  | Resolved a => Resolved a
  | Rejected e => handler e
  end.

(** A [fetch] response: [res.ok], and what [await res.json()] gives (it
    rejects when the body is not JSON). *)
Record response : Type := mkResponse {
  res_ok : bool;
  res_json : outcome jval
}.

(** [loadLatest()]; [enabled] is [Boolean(baseUrl)] and [fetched] is what
    [await fetch(`${baseUrl}/api/games/latest`, ...)] gives. *)
Definition loadLatest (enabled : bool) (fetched : outcome response)
  : outcome jval :=
  if negb enabled then Resolved JNull
  else
    try_catch
      (res <- fetched ;;
       if negb (res_ok res) then Resolved JNull
       else res_json res)
      (fun _e => Resolved JNull).

(** ** The load effect of [App] *)

(** The state that [setGame] receives for a snapshot [loaded] whose board is
    the array [l]. *)
Definition snapshot_game (loaded : jval) (l : list jval) (now : string) : game :=
  let np := if strict_eq (get_field loaded "next_player") (JStr "O")
            then PO else PX in
  let d := deriveStatus l np in
  {| board := l;
     nextPlayer := np;
     status := d_status d;
     winner := nullish_or (get_field loaded "winner") (d_winner d);
     isDraw := truthy (nullish_or (get_field loaded "is_draw") (JBool (d_isDraw d)));
     moves := match get_field loaded "moves" with
              | JNum n => n
              | _ => d_moves d
              end;
     updatedAt := let u := get_field loaded "updated_at" in
                  if truthy u then u else JStr now |}.

(** The body of [run()] after [const loaded = await api.loadLatest()]: the
    state handed to [setGame] (if any) and the text handed to
    [setApiStatus] (if any). *)
Definition apply_loaded (cancelled : bool) (loaded : jval) (now : string)
  : option game * option string :=
  if cancelled then (None, None)
  else
    let bd := get_field loaded "board" in
    match bd with
    | JArr l =>
        if truthy loaded && Nat.eqb (List.length l) 9
        then (Some (snapshot_game loaded l now), Some "Synced")
        else (None, Some "Online (no saved game)")
    | _ => (None, Some "Online (no saved game)")
    end.

(** The whole of [run()]: nothing when the API is disabled; a rejection of
    [loadLatest] would end [run()] with an unhandled rejection. *)
Definition load_effect (enabled cancelled : bool) (fetched : outcome response)
  (now : string) : option game * option string :=
  if negb enabled then (None, None)
  else
    match loadLatest enabled fetched with
    | Resolved loaded => apply_loaded cancelled loaded now
    | Rejected _ => (None, None)
    end.

(** ** Reachable states *)

(** States the component can hold: the initial state, then any number of
    clicks, resets and applied snapshots.  [accept] restricts which loaded
    snapshots are considered. *)
Inductive reachable (accept : jval -> Prop) : game -> Prop :=
| R_init now : reachable accept (createEmptyGameState now)
| R_click g i now g' :
    reachable accept g -> handleSquareClick g i now = Some g' ->
    reachable accept g'
| R_reset g now : reachable accept g -> reachable accept (handleReset now)
| R_load g loaded now g' :
    reachable accept g -> accept loaded ->
    fst (apply_loaded false loaded now) = Some g' ->
    reachable accept g'.

(** The invariant of the data model: [winner] and [isDraw] are not both set,
    both agree with what [deriveStatus] derives from the board, and [moves]
    counts the non-empty cells. *)
Definition consistent (g : game) : Prop :=
  let d := deriveStatus (board g) (nextPlayer g) in
  ~ (truthy (winner g) = true /\ isDraw g = true) /\
  winner g = d_winner d /\ isDraw g = d_isDraw d /\
  moves g = Z.of_nat (List.length (filter truthy (board g))).

(** The stored [winner], [is_draw] and [moves] of a snapshot agree with
    what [deriveStatus] derives from the board [l] it carries: a [winner]
    that is not null/missing equals the derived winner, an [is_draw] that
    is not null/missing has the truthiness of the derived draw flag, and a
    numeric [moves] equals the derived count. *)
Definition snapshot_fields_agree (loaded : jval) (l : list jval) : Prop :=
  let np := if strict_eq (get_field loaded "next_player") (JStr "O")
            then PO else PX in
  let d := deriveStatus l np in
  (get_field loaded "winner" = JNull \/ get_field loaded "winner" = JUndef \/
   get_field loaded "winner" = d_winner d) /\
  (get_field loaded "is_draw" = JNull \/ get_field loaded "is_draw" = JUndef \/
   truthy (get_field loaded "is_draw") = d_isDraw d) /\
  (forall n, get_field loaded "moves" = JNum n -> n = d_moves d).

(** A snapshot whose stored fields agree with its board (a snapshot
    without a board array is never applied). *)
Definition snapshot_agrees (loaded : jval) : Prop :=
  forall l, get_field loaded "board" = JArr l -> snapshot_fields_agree loaded l.

(** ** useOptionalGameApi: the base URL *)

(** [a || b] where [a] is an environment variable: [undefined] or a
    string, the empty string being falsy. *)
Definition env_or (a : option string) (b : string) : string :=
  match a with
  | Some s => if String.eqb s "" then b else s
  | None => b
  end.

Fixpoint drop_slashes (l : list ascii) : list ascii :=
  match l with
  | c :: r => if Ascii.eqb c "/"%char then drop_slashes r else l
  | [] => []
  end.

(** [raw.replace(/\/+$/, "")]: the one match of the pattern is the longest
    run of slashes that ends the string. *)
Definition strip_trailing_slashes (s : string) : string :=
  string_of_list_ascii (rev (drop_slashes (rev (list_ascii_of_string s)))).

(** [baseUrl] from [REACT_APP_BACKEND_URL] and [REACT_APP_API_BASE]. *)
Definition baseUrl_of (backend_url api_base : option string) : string :=
  strip_trailing_slashes (env_or backend_url (env_or api_base "")).

(** [enabled = Boolean(baseUrl)]. *)
Definition api_enabled (baseUrl : string) : bool :=
  negb (String.eqb baseUrl "").

(** ** useOptionalGameApi: save *)

(** The object passed to [JSON.stringify] by [save(state)]. *)
Definition save_body (g : game) : jval :=
  JObj [("board", JArr (board g));
        ("next_player", JStr (player_str (nextPlayer g)));
        ("winner", winner g);
        ("is_draw", JBool (isDraw g));
        ("moves", JNum (moves g))].

(** [JSON.parse(JSON.stringify(v))] for a value nested in the body:
    [undefined] array elements (and holes) become [null], [undefined]
    properties are left out, everything else is copied. *)
Fixpoint json_rt (v : jval) : jval :=
  match v with
  | JArr l =>
      JArr ((fix items (l : list jval) : list jval :=
               match l with
               | [] => []
               | x :: r =>
                   (match x with JUndef => JNull | _ => json_rt x end)
                     :: items r
               end) l)
  | JObj fs =>
      JObj ((fix flds (fs : list (string * jval)) : list (string * jval) :=
               match fs with
               | [] => []
               | (k, x) :: r =>
                   match x with
                   | JUndef => flds r
                   | _ => (k, json_rt x) :: flds r
                   end
               end) fs)
  | _ => v
  end.

(** [save(state)]: the request body as the backend parses it (when a
    request is sent) and what the returned promise gives. *)
Definition save (enabled : bool) (g : game) (fetched : outcome response)
  : option jval * outcome jval :=
  if negb enabled then (None, Resolved JNull)
  else
    (Some (json_rt (save_body g)),
     try_catch
       (res <- fetched ;;
        if negb (res_ok res) then Resolved JNull
        else res_json res)
       (fun _e => Resolved JNull)).

(** The timer callback of the save effect: the successive [setApiStatus]
    calls. *)
Definition save_callback (enabled : bool) (g : game) (fetched : outcome response)
  : list string :=
  "Saving…" ::
  match snd (save enabled g fetched) with
  | Resolved saved => [if truthy saved then "Synced" else "Offline"]
  | Rejected _ => []
  end.

(** ** Rendering *)

(** [disabled={!canPlay || Boolean(value)}] of the button of cell [idx]. *)
Definition cell_disabled (g : game) (idx : nat) : bool :=
  negb (canPlay g) || truthy (at_ (board g) idx).

(** [data-state] of the status pill. *)
Definition status_pill_state (g : game) : string :=
  if truthy (winner g) then "winner"
  else if isDraw g then "draw" else "playing".

(** ** States reached by play *)

(** The states the component holds when the backend is off: the initial
    state, clicks on the cells of the rendered board ([idx] ranges over
    [game.board]), and resets. *)
Inductive played : game -> Prop :=
| P_init now : played (createEmptyGameState now)
| P_click g i now g' :
    played g -> i < List.length (board g) ->
    handleSquareClick g i now = Some g' -> played g'
| P_reset g now : played g -> played (handleReset now).

(** Number of cells holding mark [m]. *)
Definition count_mark (bd : list jval) (m : player) : nat :=
  List.length (filter (fun v => strict_eq v (JStr (player_str m))) bd).

(** ** Lemmas about calculateWinner *)

Definition is_mark (v : jval) : Prop := v = JStr "X" \/ v = JStr "O".

Definition line_first (t : nat * nat * nat) : nat :=
  let '(a, _, _) := t in a.

(** The early-return loop yields the first cell of the first won line, or
    [null] when no line is won. *)
Lemma scan_lines_first (bd : list jval) (ls : list (nat * nat * nat)) :
  (scan_lines bd ls = JNull /\ Forall (fun t => line_won bd t = false) ls) \/
  (exists pre t post,
      ls = (pre ++ t :: post)%list /\
      Forall (fun t' => line_won bd t' = false) pre /\
      line_won bd t = true /\
      scan_lines bd ls = at_ bd (line_first t)).
Proof.
  induction ls as [|t rest IH]; simpl.
  - left. split; [reflexivity | constructor].
  - destruct (line_won bd t) eqn:Hw.
    + right. exists [], t, rest.
      destruct t as [[a b] c]. repeat split; auto.
    + destruct IH as [[Hn Hall] | (pre & t' & post & Heq & Hpre & Hw' & Hv)].
      * left. split; [exact Hn | constructor; assumption].
      * right. exists (t :: pre), t', post.
        subst rest. repeat split; auto.
Qed.

Lemma line_won_at_first (bd : list jval) (t : nat * nat * nat) :
  line_won bd t = true -> truthy (at_ bd (line_first t)) = true.
Proof.
  destruct t as [[a b] c]; simpl.
  destruct (truthy (at_ bd a)); simpl; congruence.
Qed.

Lemma line_won_of_mark (bd : list jval) a b c v :
  is_mark v -> at_ bd a = v -> at_ bd b = v -> at_ bd c = v ->
  line_won bd (a, b, c) = true.
Proof.
  intros [-> | ->] Ha Hb Hc; unfold line_won; rewrite Ha, Hb, Hc; reflexivity.
Qed.

Lemma calculateWinner_cases (bd : list jval) :
  (calculateWinner bd = JNull /\
   Forall (fun t => line_won bd t = false) lines) \/
  (exists t, In t lines /\ line_won bd t = true /\
             calculateWinner bd = at_ bd (line_first t)).
Proof.
  unfold calculateWinner.
  destruct (scan_lines_first bd lines)
    as [H | (pre & t & post & Heq & _ & Hw & Hv)].
  - left. exact H.
  - right. exists t. split; [|split; assumption].
    rewrite Heq. apply in_or_app. right. left. reflexivity.
Qed.

(** On a board of [null], ["X"] and ["O"] cells, a line is won exactly when
    its three cells hold the same mark. *)
Definition mark_cell (v : jval) : Prop := v = JNull \/ is_mark v.

Lemma line_won_marks (bd : list jval) a b c :
  mark_cell (at_ bd a) -> mark_cell (at_ bd b) -> mark_cell (at_ bd c) ->
  line_won bd (a, b, c) = true <->
  exists v, is_mark v /\ at_ bd a = v /\ at_ bd b = v /\ at_ bd c = v.
Proof.
  unfold mark_cell, is_mark, line_won.
  intros [Ha | [Ha | Ha]] [Hb | [Hb | Hb]] [Hc | [Hc | Hc]];
    rewrite Ha, Hb, Hc; simpl; split;
    try discriminate;
    try (intros (v & [-> | ->] & H1 & H2 & H3); discriminate);
    intros _;
    solve [ reflexivity
          | exists (JStr "X"); intuition
          | exists (JStr "O"); intuition ].
Qed.

(** A board where row 0 holds "X" and row 1 holds "O". *)
Definition board_xo : list jval :=
  [JStr "X"; JStr "X"; JStr "X";
   JStr "O"; JStr "O"; JStr "O";
   JNull; JNull; JNull].

Definition board_top_x : list jval :=
  [JStr "X"; JStr "X"; JStr "X";
   JStr "O"; JNull; JStr "O";
   JNull; JStr "O"; JNull].

(** ** Claims *)

(** C1 (as stated, refuted): "every board with three equal non-empty marks
    in one of the 8 lines makes calculateWinner return that mark" fails on
    [board_xo]: the row [3,4,5] holds "O" but calculateWinner returns "X",
    the mark of the earlier row [0,1,2]. *)
Lemma C1_counterexample :
  ~ (forall bd a b c v,
        In (a, b, c) lines -> is_mark v ->
        at_ bd a = v -> at_ bd b = v -> at_ bd c = v ->
        calculateWinner bd = v).
Proof.
  intros H.
  assert (Hx : calculateWinner board_xo = JStr "X") by reflexivity.
  assert (Ho : calculateWinner board_xo = JStr "O").
  { apply (H board_xo 3 4 5); simpl; auto 10. unfold is_mark; auto. }
  rewrite Hx in Ho. discriminate.
Qed.

(** C1 (amended): when some line of the 8 holds three equal marks [v],
    calculateWinner returns a non-empty value: the first cell of the first
    won line in the fixed order (every earlier line is not won), so on a
    board with complete lines of both marks it returns the mark of the
    earlier line; and it returns [v] itself whenever every won line holds
    [v]. *)
Theorem calculateWinner_line_mark (bd : list jval) (a b c : nat) (v : jval)
  (Hin : In (a, b, c) lines) (Hm : is_mark v)
  (Ha : at_ bd a = v) (Hb : at_ bd b = v) (Hc : at_ bd c = v) :
  truthy (calculateWinner bd) = true /\
  (exists pre t post,
      lines = (pre ++ t :: post)%list /\
      Forall (fun t' => line_won bd t' = false) pre /\
      line_won bd t = true /\
      calculateWinner bd = at_ bd (line_first t)) /\
  ((forall t, In t lines -> line_won bd t = true ->
              at_ bd (line_first t) = v) ->
   calculateWinner bd = v).
Proof.
  pose proof (line_won_of_mark bd a b c v Hm Ha Hb Hc) as Hw.
  unfold calculateWinner.
  destruct (scan_lines_first bd lines)
    as [[_ Hall] | (pre & t & post & Heq & Hpre & Hwt & Hv)].
  - rewrite Forall_forall in Hall. rewrite (Hall _ Hin) in Hw. discriminate.
  - split; [| split].
    + rewrite Hv. apply line_won_at_first. exact Hwt.
    + exists pre, t, post. auto.
    + intros Huniq. rewrite Hv. apply Huniq; [| exact Hwt].
      rewrite Heq. apply in_or_app. right. left. reflexivity.
Qed.

Lemma calculateWinner_line_mark_witness :
  In (0, 1, 2) lines /\ is_mark (JStr "X") /\
  calculateWinner board_top_x = JStr "X".
Proof.
  assert (Hin : In (0, 1, 2) lines) by (simpl; auto).
  assert (Hm : is_mark (JStr "X")) by (left; reflexivity).
  split; [exact Hin | split; [exact Hm |]].
  destruct (calculateWinner_line_mark board_top_x 0 1 2 (JStr "X") Hin Hm
              eq_refl eq_refl eq_refl) as (_ & _ & H).
  apply H. intros t Ht Hw.
  simpl in Ht.
  repeat (destruct Ht as [<- | Ht]; [vm_compute in Hw |]);
    try discriminate; try reflexivity; destruct Ht.
Defined.

(** C7: calculateWinner tests exactly the rows [0,1,2], [3,4,5], [6,7,8],
    the columns [0,3,6], [1,4,7], [2,5,8] and the diagonals [0,4,8],
    [2,4,6], in that order; it returns the mark of the first of them whose
    three cells hold the same non-empty value (the test
    [v && v === board[b] && v === board[c]]), and null when none does. *)
Theorem calculateWinner_first_line (bd : list jval) :
  lines = [ (0, 1, 2); (3, 4, 5); (6, 7, 8);
            (0, 3, 6); (1, 4, 7); (2, 5, 8);
            (0, 4, 8); (2, 4, 6) ] /\
  ((calculateWinner bd = JNull /\
    Forall (fun t => line_won bd t = false) lines) \/
   (exists pre t post,
       lines = (pre ++ t :: post)%list /\
       Forall (fun t' => line_won bd t' = false) pre /\
       line_won bd t = true /\
       calculateWinner bd = at_ bd (line_first t))).
Proof.
  split; [reflexivity | apply scan_lines_first].
Qed.

(** ** Array writes *)

Lemma at_js_set_same (l : list jval) (i : nat) (v : jval) :
  at_ (js_set l i v) i = v.
Proof.
  revert l. induction i as [|i IH]; intros [|x r]; unfold at_ in *; simpl;
    auto; apply (IH []).
Qed.

Lemma at_js_set_other (l : list jval) (i j : nat) (v : jval) :
  j <> i -> at_ (js_set l i v) j = at_ l j.
Proof.
  revert l j. induction i as [|i IH]; intros [|x r] [|j] Hne;
    unfold at_ in *; simpl; try lia; try reflexivity.
  - destruct j; reflexivity.
  - specialize (IH [] j ltac:(lia)). simpl in IH. rewrite IH. destruct j; reflexivity.
  - apply IH. lia.
Qed.

(** C2: a click on an occupied cell ([board[index]] truthy), or once the
    game has a winner or is a draw, returns before [setGame]: the state is
    kept as it is, and the click produces no error (the function is total). *)
Theorem handleSquareClick_ignored (g : game) (index : nat) (now : string)
  (Hblocked : truthy (at_ (board g) index) = true \/
              truthy (winner g) = true \/ isDraw g = true) :
  handleSquareClick g index now = None /\ click_state g index now = g.
Proof.
  assert (Hn : handleSquareClick g index now = None).
  { unfold handleSquareClick, canPlay.
    destruct Hblocked as [Ho | [Hw | Hd]].
    - rewrite Ho. destruct (truthy (winner g)), (isDraw g); reflexivity.
    - rewrite Hw. reflexivity.
    - rewrite Hd. destruct (truthy (winner g)); reflexivity. }
  split; [exact Hn | unfold click_state; rewrite Hn; reflexivity].
Qed.

Definition g_after_top_row : game :=
  {| board := board_top_x; nextPlayer := PO; status := "Winner: X";
     winner := JStr "X"; isDraw := false; moves := 6;
     updatedAt := JStr "t" |}.

Lemma handleSquareClick_ignored_witness :
  click_state g_after_top_row 4 "t2" = g_after_top_row.
Proof.
  apply (handleSquareClick_ignored g_after_top_row 4 "t2").
  right. left. reflexivity.
Defined.

(** The player flip [game.nextPlayer === "X" ? "O" : "X"]. *)
Definition other (p : player) : player :=
  match p with PX => PO | PO => PX end.

(** C3: a click on an empty cell while there is no winner and no draw
    writes the current player's mark into that cell (every other cell is
    kept), flips [nextPlayer] between "X" and "O", and takes [winner],
    [isDraw], [moves] and [status] from [deriveStatus] on the new board. *)
Theorem handleSquareClick_valid (g : game) (index : nat) (now : string)
  (Hw : truthy (winner g) = false) (Hd : isDraw g = false)
  (He : truthy (at_ (board g) index) = false) :
  let nb := js_set (board g) index (JStr (player_str (nextPlayer g))) in
  let d := deriveStatus nb (other (nextPlayer g)) in
  handleSquareClick g index now =
    Some {| board := nb;
            nextPlayer := other (nextPlayer g);
            status := d_status d;
            winner := d_winner d;
            isDraw := d_isDraw d;
            moves := d_moves d;
            updatedAt := JStr now |} /\
  at_ nb index = JStr (player_str (nextPlayer g)) /\
  (forall j, j <> index -> at_ nb j = at_ (board g) j).
Proof.
  intros nb d. split; [| split].
  - unfold handleSquareClick, canPlay. rewrite Hw, Hd, He. simpl.
    destruct (nextPlayer g); reflexivity.
  - apply at_js_set_same.
  - intros j Hj. apply at_js_set_other. exact Hj.
Qed.

Lemma handleSquareClick_valid_witness :
  handleSquareClick (createEmptyGameState "t0") 4 "t1" =
    Some {| board := [JNull; JNull; JNull; JNull; JStr "X";
                      JNull; JNull; JNull; JNull];
            nextPlayer := PO;
            status := "Next player: O";
            winner := JNull;
            isDraw := false;
            moves := 1;
            updatedAt := JStr "t1" |}.
Proof.
  destruct (handleSquareClick_valid (createEmptyGameState "t0") 4 "t1"
              eq_refl eq_refl eq_refl) as [H _].
  rewrite H. vm_compute. reflexivity.
Defined.

Lemma filter_all_truthy (bd : list jval) :
  Forall (fun v => truthy v = true) bd -> filter truthy bd = bd.
Proof.
  induction 1 as [|x r Hx _ IH]; simpl; [reflexivity|].
  rewrite Hx, IH. reflexivity.
Qed.

(** C4: on a board of 9 non-empty cells where calculateWinner returns
    null, deriveStatus reports a draw: [isDraw] true, [winner] null and the
    status "Draw". *)
Theorem deriveStatus_full_board (bd : list jval) (np : player)
  (Hlen : List.length bd = 9)
  (Hfull : Forall (fun v => truthy v = true) bd)
  (Hnone : calculateWinner bd = JNull) :
  d_isDraw (deriveStatus bd np) = true /\
  d_winner (deriveStatus bd np) = JNull /\
  d_status (deriveStatus bd np) = "Draw".
Proof.
  unfold deriveStatus. rewrite Hnone, (filter_all_truthy bd Hfull), Hlen.
  simpl. repeat split.
Qed.

Definition board_draw : list jval :=
  [JStr "X"; JStr "O"; JStr "X";
   JStr "X"; JStr "O"; JStr "O";
   JStr "O"; JStr "X"; JStr "X"].

Lemma deriveStatus_full_board_witness :
  calculateWinner board_draw = JNull /\
  d_status (deriveStatus board_draw PX) = "Draw".
Proof.
  assert (Hn : calculateWinner board_draw = JNull) by reflexivity.
  split; [exact Hn |].
  apply (deriveStatus_full_board board_draw PX); [reflexivity | | exact Hn].
  repeat constructor.
Defined.

(** C5: [handleReset] sets the fresh state of [createEmptyGameState]: nine
    empty cells, "X" to move, no winner, no draw, no moves and the status
    "Next player: X" (whatever the state before). *)
Theorem handleReset_fresh (now : string) :
  board (handleReset now) = repeat JNull 9 /\
  nextPlayer (handleReset now) = PX /\
  winner (handleReset now) = JNull /\
  isDraw (handleReset now) = false /\
  moves (handleReset now) = 0%Z /\
  status (handleReset now) = "Next player: X".
Proof.
  repeat split.
Qed.

(** ** The state invariant *)

Lemma deriveStatus_facts (bd : list jval) (np : player) :
  ~ (truthy (d_winner (deriveStatus bd np)) = true /\
     d_isDraw (deriveStatus bd np) = true) /\
  d_moves (deriveStatus bd np) = Z.of_nat (List.length (filter truthy bd)).
Proof.
  unfold deriveStatus.
  destruct (truthy (calculateWinner bd)) eqn:Hw;
    [| destruct (Z.eqb _ 9)]; simpl; split; try reflexivity;
    intros [H1 H2]; discriminate.
Qed.

Lemma deriveStatus_player (bd : list jval) (p q : player) :
  d_winner (deriveStatus bd p) = d_winner (deriveStatus bd q) /\
  d_isDraw (deriveStatus bd p) = d_isDraw (deriveStatus bd q).
Proof.
  unfold deriveStatus.
  destruct (truthy (calculateWinner bd)); [| destruct (Z.eqb _ 9)];
    split; reflexivity.
Qed.

Lemma createEmptyGameState_consistent (now : string) :
  consistent (createEmptyGameState now).
Proof.
  unfold consistent. simpl. repeat split.
  intros [H _]. discriminate.
Qed.

Lemma handleSquareClick_consistent (g g' : game) (i : nat) (now : string) :
  handleSquareClick g i now = Some g' -> consistent g'.
Proof.
  unfold handleSquareClick.
  destruct (negb (canPlay g)); [discriminate |].
  destruct (truthy (at_ (board g) i)); [discriminate |].
  intros H. injection H as <-.
  unfold consistent; simpl.
  set (nb := js_set (board g) i (JStr (player_str (nextPlayer g)))).
  set (np := if String.eqb (player_str (nextPlayer g)) "X" then PO else PX).
  destruct (deriveStatus_facts nb np) as [Hx Hm].
  repeat split; assumption.
Qed.

Lemma snapshot_game_consistent (loaded : jval) (l : list jval) (now : string) :
  consistent (snapshot_game loaded l now) <-> snapshot_fields_agree loaded l.
Proof.
  unfold consistent, snapshot_fields_agree, snapshot_game; simpl.
  set (np := if strict_eq (get_field loaded "next_player") (JStr "O")
             then PO else PX).
  destruct (deriveStatus_facts l np) as [Hx Hmv].
  set (d := deriveStatus l np) in *.
  split.
  - intros (_ & Hw & Hd & Hm). split; [| split].
    + destruct (get_field loaded "winner"); simpl in Hw; auto.
    + destruct (get_field loaded "is_draw"); simpl in Hd; auto.
    + intros n En. rewrite En in Hm. congruence.
  - intros (Hw & Hd & Hm).
    assert (Ew : nullish_or (get_field loaded "winner") (d_winner d) = d_winner d).
    { destruct Hw as [-> | [-> | Hw]]; [reflexivity | reflexivity |].
      rewrite Hw. destruct (d_winner d); reflexivity. }
    assert (Ed : truthy (nullish_or (get_field loaded "is_draw")
                           (JBool (d_isDraw d))) = d_isDraw d).
    { destruct Hd as [-> | [-> | Hd]]; [reflexivity | reflexivity |].
      destruct (get_field loaded "is_draw"); simpl in *; auto. }
    assert (Em : match get_field loaded "moves" with
                 | JNum n => n
                 | _ => d_moves d
                 end = d_moves d).
    { destruct (get_field loaded "moves") eqn:E; try reflexivity.
      exact (Hm n eq_refl). }
    rewrite Ew, Ed, Em. repeat split; assumption.
Qed.

Lemma apply_loaded_some (cancelled : bool) (loaded : jval) (now : string)
  (g' : game) :
  fst (apply_loaded cancelled loaded now) = Some g' ->
  cancelled = false /\
  exists l, get_field loaded "board" = JArr l /\ List.length l = 9 /\
            g' = snapshot_game loaded l now.
Proof.
  unfold apply_loaded.
  destruct cancelled; [discriminate |].
  destruct (get_field loaded "board") eqn:Eb; try discriminate.
  destruct (truthy loaded && Nat.eqb (List.length l) 9) eqn:Ec;
    [| discriminate].
  simpl. intros H. injection H as <-.
  apply andb_true_iff in Ec as [_ Hl]. apply Nat.eqb_eq in Hl.
  split; [reflexivity |]. exists l. auto.
Qed.

(** A snapshot whose [winner], [is_draw] and [moves] disagree with its
    board. *)
Definition snapshot_flagged : jval :=
  JObj [("board", JArr (repeat JNull 9)); ("next_player", JStr "X");
        ("winner", JStr "X"); ("is_draw", JBool true); ("moves", JNum 5)].

Definition snapshot_plain : jval :=
  JObj [("board", JArr board_top_x); ("next_player", JStr "O");
        ("updated_at", JStr "2026-01-01T00:00:00.000Z")].

(** C6 (as stated, refuted): applying the loaded snapshot
    [snapshot_flagged] right after start-up gives a state with winner "X"
    and [isDraw] true at once, on an empty board, with [moves] 5. *)
Lemma C6_counterexample :
  ~ (forall g, reachable (fun _ => True) g -> consistent g).
Proof.
  intros H.
  set (g' := snapshot_game snapshot_flagged (repeat JNull 9) "t").
  assert (Hr : reachable (fun _ => True) g').
  { apply (R_load _ (createEmptyGameState "t") snapshot_flagged "t").
    - apply R_init.
    - exact I.
    - reflexivity. }
  destruct (H g' Hr) as [Hboth _].
  apply Hboth. split; reflexivity.
Qed.

(** C6 (amended): an applied snapshot gives a state satisfying the
    invariant exactly when its stored [winner], [is_draw] and [moves], where
    present, agree with the values derived from its board (the stored
    fields are copied ahead of the derived ones); and every state reached
    from the initial state through clicks, resets and applied snapshots of
    that kind satisfies the invariant: [winner] and [isDraw] are not both
    set, both equal what [deriveStatus] derives from the board, and [moves]
    counts the non-empty cells. *)
Theorem reachable_agreeing_consistent :
  (forall g, reachable snapshot_agrees g -> consistent g) /\
  (forall loaded now g', fst (apply_loaded false loaded now) = Some g' ->
     (consistent g' <-> snapshot_agrees loaded)).
Proof.
  split.
  - intros g Hr.
    induction Hr as [now | g i now g' _ _ Hc | g now _ _
                     | g loaded now g' _ _ Hp Hl].
    + apply createEmptyGameState_consistent.
    + exact (handleSquareClick_consistent g g' i now Hc).
    + apply createEmptyGameState_consistent.
    + destruct (apply_loaded_some false loaded now g' Hl)
        as (_ & l & Hb & _ & ->).
      apply snapshot_game_consistent. exact (Hp l Hb).
  - intros loaded now g' Hl.
    destruct (apply_loaded_some false loaded now g' Hl)
      as (_ & l & Hb & _ & ->).
    rewrite snapshot_game_consistent.
    split.
    + intros H l' Hb'. rewrite Hb in Hb'. injection Hb' as <-. exact H.
    + intros H. exact (H l Hb).
Qed.

(** The body that [save] sends for the initial state. *)
Definition snapshot_saved_empty : jval :=
  JObj [("board", JArr (repeat JNull 9)); ("next_player", JStr "X");
        ("winner", JNull); ("is_draw", JBool false); ("moves", JNum 0)].

Lemma reachable_agreeing_consistent_witness :
  consistent (snapshot_game snapshot_saved_empty (repeat JNull 9) "t") /\
  consistent (snapshot_game snapshot_plain board_top_x "t").
Proof.
  destruct reachable_agreeing_consistent as [H _].
  split; apply H.
  - apply (R_load _ (createEmptyGameState "t") snapshot_saved_empty "t").
    + apply R_init.
    + intros l E. injection E as <-. cbn.
      split; [left; reflexivity |].
      split; [right; right; reflexivity |].
      intros n En. injection En as <-. reflexivity.
    + reflexivity.
  - apply (R_load _ (createEmptyGameState "t") snapshot_plain "t").
    + apply R_init.
    + intros l E. injection E as <-. cbn.
      split; [right; left; reflexivity |].
      split; [right; left; reflexivity |].
      intros n En. discriminate.
    + reflexivity.
Defined.

(** ** The API client and the load effect *)

(** C8: [loadLatest] always resolves (no rejection reaches its caller), and
    it resolves with null when the backend is not configured, when [fetch]
    throws, when the response is not ok, and when [res.json()] throws. *)
Theorem loadLatest_failures :
  (forall enabled fetched, exists v, loadLatest enabled fetched = Resolved v) /\
  (forall fetched, loadLatest false fetched = Resolved JNull) /\
  (forall e, loadLatest true (Rejected e) = Resolved JNull) /\
  (forall body, loadLatest true (Resolved (mkResponse false body))
                = Resolved JNull) /\
  (forall e, loadLatest true (Resolved (mkResponse true (Rejected e)))
             = Resolved JNull).
Proof.
  split; [| repeat split; reflexivity].
  intros [|] [[[|] [v | e]] | e]; simpl; eexists; reflexivity.
Qed.

Lemma strict_eq_O (v : jval) :
  strict_eq v (JStr "O") = true <-> v = JStr "O".
Proof.
  destruct v; simpl; split; try discriminate.
  - intros H. apply String.eqb_eq in H. subst. reflexivity.
  - intros H. injection H as ->. reflexivity.
Qed.

Lemma get_field_obj (v : jval) (k : string) :
  get_field v k <> JUndef -> truthy v = true.
Proof.
  destruct v; simpl; try reflexivity; intros H; exfalso; apply H; reflexivity.
Qed.

(** C9: of a snapshot [loaded] that [loadLatest] resolved with, [run()]
    hands a state to [setGame] only when [loaded.board] is an array of
    exactly 9 cells, and that state has this board; for any other value of
    [loaded] (null, no board, a board of another length) it does not call
    [setGame], so the game state stays as it was.  With the API enabled and
    the component still mounted, such a board is always applied. *)
Theorem load_effect_board_guard (enabled cancelled : bool)
  (fetched : outcome response) (now : string) (loaded : jval)
  (Hl : loadLatest enabled fetched = Resolved loaded) :
  (forall g', fst (load_effect enabled cancelled fetched now) = Some g' ->
     exists l, get_field loaded "board" = JArr l /\ List.length l = 9 /\
               board g' = l) /\
  ((forall l, get_field loaded "board" = JArr l -> List.length l <> 9) ->
     fst (load_effect enabled cancelled fetched now) = None) /\
  (forall l, enabled = true -> cancelled = false ->
     get_field loaded "board" = JArr l -> List.length l = 9 ->
     fst (load_effect enabled cancelled fetched now)
       = Some (snapshot_game loaded l now)).
Proof.
  unfold load_effect.
  destruct enabled; simpl;
    [rewrite Hl | split; [discriminate | split; [reflexivity | discriminate]]].
  split; [| split].
  - intros g' H.
    destruct (apply_loaded_some cancelled loaded now g' H)
      as (_ & l & Hb & Hlen & ->).
    exists l. auto.
  - intros Hnot.
    destruct (fst (apply_loaded cancelled loaded now)) as [g'|] eqn:E;
      [| reflexivity].
    destruct (apply_loaded_some cancelled loaded now g' E)
      as (_ & l & Hb & Hlen & _).
    exfalso. exact (Hnot l Hb Hlen).
  - intros l _ -> Hb Hlen. unfold apply_loaded. rewrite Hb.
    assert (Ht : truthy loaded = true)
      by (apply (get_field_obj loaded "board"); rewrite Hb; discriminate).
    rewrite Ht, Hlen. reflexivity.
Qed.

(** A backend answer carrying [snapshot_plain]. *)
Definition fetched_plain : outcome response :=
  Resolved (mkResponse true (Resolved snapshot_plain)).

Definition fetched_short : outcome response :=
  Resolved (mkResponse true
    (Resolved (JObj [("board", JArr [JNull; JNull; JNull])]))).

Lemma load_effect_board_guard_witness :
  fst (load_effect true false fetched_plain "t")
    = Some (snapshot_game snapshot_plain board_top_x "t") /\
  fst (load_effect true false fetched_short "t") = None.
Proof.
  split.
  - destruct (load_effect_board_guard true false fetched_plain "t"
                snapshot_plain eq_refl) as (_ & _ & H).
    apply H; reflexivity.
  - destruct (load_effect_board_guard true false fetched_short "t"
                (JObj [("board", JArr [JNull; JNull; JNull])]) eq_refl)
      as (_ & H & _).
    apply H. intros l E. injection E as <-. discriminate.
Defined.

(** C10: when a loaded snapshot is applied, [nextPlayer] is "O" exactly
    when [loaded.next_player === "O"], and "X" for every other value of the
    field (missing, null, "X", or anything else). *)
Theorem apply_loaded_next_player (cancelled : bool) (loaded : jval)
  (now : string) (g' : game)
  (Happ : fst (apply_loaded cancelled loaded now) = Some g') :
  (nextPlayer g' = PO <-> get_field loaded "next_player" = JStr "O") /\
  (nextPlayer g' = PX <-> get_field loaded "next_player" <> JStr "O").
Proof.
  destruct (apply_loaded_some cancelled loaded now g' Happ)
    as (_ & l & _ & _ & ->).
  unfold snapshot_game; simpl.
  rewrite <- strict_eq_O.
  destruct (strict_eq (get_field loaded "next_player") (JStr "O"));
    split; split; intros H; try reflexivity; try discriminate;
    try contradiction; exfalso; apply H; reflexivity.
Qed.

Definition snapshot_player_z : jval :=
  JObj [("board", JArr (repeat JNull 9)); ("next_player", JStr "Z")].

Lemma apply_loaded_next_player_witness :
  nextPlayer (snapshot_game snapshot_player_z (repeat JNull 9) "t") = PX.
Proof.
  destruct (apply_loaded_next_player false snapshot_player_z "t"
              (snapshot_game snapshot_player_z (repeat JNull 9) "t") eq_refl)
    as [_ [_ H]].
  apply H. discriminate.
Defined.

(** ** Further properties: the API client *)

Lemma drop_slashes_spec (l : list ascii) :
  exists k, l = (repeat "/"%char k ++ drop_slashes l)%list /\
            (forall c r, drop_slashes l = c :: r -> c <> "/"%char).
Proof.
  induction l as [|c r IH]; simpl.
  - exists 0. split; [reflexivity | discriminate].
  - destruct (Ascii.eqb c "/") eqn:E.
    + apply Ascii.eqb_eq in E. subst c.
      destruct IH as (k & Hk & Hn). exists (S k). simpl. rewrite <- Hk. auto.
    + exists 0. split; [reflexivity |].
      intros c' r' H. injection H as <- <-. intros ->. discriminate.
Qed.

Lemma drop_slashes_nil (l : list ascii) :
  drop_slashes l = [] <-> Forall (fun c => c = "/"%char) l.
Proof.
  induction l as [|c r IH]; simpl.
  - split; auto.
  - destruct (Ascii.eqb c "/") eqn:E.
    + apply Ascii.eqb_eq in E. subst c. rewrite IH.
      split; [auto | intros H; inversion H; assumption].
    + split; [discriminate |]. intros H. inversion H; subst.
      discriminate.
Qed.

(** X1: [baseUrl] is the configured URL ([REACT_APP_BACKEND_URL] when it is
    a non-empty string, else [REACT_APP_API_BASE], else empty) with its
    trailing slashes removed: it never ends in "/", appending the removed
    slashes gives the configured URL back, and the API is disabled exactly
    when the configured URL is empty or made only of slashes. *)
Theorem baseUrl_of_spec (backend_url api_base : option string) :
  let raw := env_or backend_url (env_or api_base "") in
  let url := baseUrl_of backend_url api_base in
  (exists k, list_ascii_of_string raw
             = (list_ascii_of_string url ++ repeat "/"%char k)%list) /\
  (forall pre c, list_ascii_of_string url = (pre ++ [c])%list ->
                 c <> "/"%char) /\
  (api_enabled url = false <->
   Forall (fun c => c = "/"%char) (list_ascii_of_string raw)).
Proof.
  intros raw url.
  unfold url, baseUrl_of, strip_trailing_slashes. fold raw.
  rewrite list_ascii_of_string_of_list_ascii.
  destruct (drop_slashes_spec (rev (list_ascii_of_string raw)))
    as (k & Hk & Hn).
  split; [| split].
  - exists k.
    apply (f_equal (@rev ascii)) in Hk.
    rewrite rev_involutive, rev_app_distr in Hk.
    rewrite rev_repeat in Hk. exact Hk.
  - intros pre c H.
    apply (Hn c (rev pre)).
    rewrite <- (rev_involutive (drop_slashes _)), H, rev_app_distr.
    reflexivity.
  - unfold api_enabled. rewrite negb_false_iff, String.eqb_eq.
    split.
    + intros H.
      assert (Hd : drop_slashes (rev (list_ascii_of_string raw)) = []).
      { apply (f_equal list_ascii_of_string) in H.
        rewrite list_ascii_of_string_of_list_ascii in H.
        apply (f_equal (@rev ascii)) in H. rewrite rev_involutive in H.
        exact H. }
      apply drop_slashes_nil in Hd.
      rewrite Forall_forall in Hd |- *. intros c Hc.
      apply Hd, in_rev. rewrite rev_involutive. exact Hc.
    + intros H.
      assert (Hd : drop_slashes (rev (list_ascii_of_string raw)) = []).
      { apply drop_slashes_nil. rewrite Forall_forall in H |- *.
        intros c Hc. apply H, in_rev. exact Hc. }
      rewrite Hd. reflexivity.
Qed.

(** Whether a save request is answered with a truthy saved object. *)
Definition save_succeeds (enabled : bool) (fetched : outcome response) : Prop :=
  enabled = true /\
  exists res v, fetched = Resolved res /\ res_ok res = true /\
                res_json res = Resolved v /\ truthy v = true.

(** X2: the timer callback of the save effect first shows "Saving…" and
    then exactly one more status: "Synced" when the backend is enabled,
    the request gets an ok response and its JSON body is truthy, and
    "Offline" in every other case (disabled API, network error, non-ok
    status, unparsable body, or an ok response whose body is null, false,
    0 or ""). *)
Theorem save_callback_status (enabled : bool) (g : game)
  (fetched : outcome response) :
  (save_callback enabled g fetched = ["Saving…"; "Synced"] <->
   save_succeeds enabled fetched) /\
  (save_callback enabled g fetched = ["Saving…"; "Offline"] <->
   ~ save_succeeds enabled fetched).
Proof.
  assert (Hcb : save_callback enabled g fetched
                = ["Saving…"; if enabled && match fetched with
                                 | Resolved res =>
                                     res_ok res &&
                                     match res_json res with
                                     | Resolved v => truthy v
                                     | Rejected _ => false
                                     end
                                 | Rejected _ => false
                                 end
                              then "Synced" else "Offline"]).
  { unfold save_callback, save.
    destruct enabled; [| reflexivity].
    destruct fetched as [[[|] [v | e]] | e]; reflexivity. }
  assert (Hb : (enabled && match fetched with
                           | Resolved res =>
                               res_ok res &&
                               match res_json res with
                               | Resolved v => truthy v
                               | Rejected _ => false
                               end
                           | Rejected _ => false
                           end) = true <-> save_succeeds enabled fetched).
  { unfold save_succeeds. split.
    - intros H. apply andb_true_iff in H as [He H]. split; [exact He |].
      destruct fetched as [res | e]; [| discriminate].
      apply andb_true_iff in H as [Hok H].
      destruct (res_json res) as [v | e] eqn:Ej; [| discriminate].
      exists res, v. auto.
    - intros (He & res & v & -> & Hok & Hj & Hv).
      rewrite He, Hok, Hj, Hv. reflexivity. }
  rewrite Hcb, <- Hb.
  destruct (_ && _); split; split; intros H;
    try reflexivity; try discriminate; try contradiction;
    exfalso; apply H; reflexivity.
Qed.

(** X3: for a run of the load effect that is not cancelled ([cancelled]
    is set by the effect's cleanup, which runs at unmount and before every
    re-run of the effect, i.e. after every render since [api] is a new
    object each render), with the API enabled the status becomes "Synced"
    exactly when a snapshot is applied and "Online (no saved game)"
    otherwise, a failed request included; a run with the API disabled or
    a cancelled run sets neither the game nor the status. *)
Theorem load_effect_status (enabled cancelled : bool)
  (fetched : outcome response) (now : string) :
  (enabled = false \/ cancelled = true ->
     load_effect enabled cancelled fetched now = (None, None)) /\
  (enabled = true -> cancelled = false ->
     (snd (load_effect enabled cancelled fetched now) = Some "Synced" /\
      fst (load_effect enabled cancelled fetched now) <> None) \/
     (snd (load_effect enabled cancelled fetched now)
        = Some "Online (no saved game)" /\
      fst (load_effect enabled cancelled fetched now) = None)) /\
  (forall e, enabled = true -> cancelled = false -> fetched = Rejected e ->
     load_effect enabled cancelled fetched now
       = (None, Some "Online (no saved game)")).
Proof.
  split; [| split].
  - intros [-> | ->]; [reflexivity |].
    unfold load_effect. destruct enabled; [| reflexivity]. simpl.
    destruct (loadLatest true fetched); reflexivity.
  - intros -> ->. unfold load_effect; simpl.
    assert (Hr : exists v, loadLatest true fetched = Resolved v).
    { destruct fetched as [[[|] [v | e]] | e]; simpl; eexists; reflexivity. }
    destruct Hr as [v ->].
    unfold apply_loaded.
    destruct (get_field v "board"); simpl; try (right; split; reflexivity).
    destruct (truthy v && Nat.eqb (List.length l) 9); simpl.
    + left. split; [reflexivity | discriminate].
    + right. split; reflexivity.
  - intros e -> -> ->. reflexivity.
Qed.

(** ** Further properties: saving and loading back *)

Lemma json_rt_scalar (v : jval) :
  (forall l, v <> JArr l) -> (forall fs, v <> JObj fs) -> json_rt v = v.
Proof.
  destruct v; intros Ha Ho; try reflexivity.
  - exfalso. exact (Ha l eq_refl).
  - exfalso. exact (Ho fields eq_refl).
Qed.

Lemma json_rt_mark_board (bd : list jval) :
  Forall mark_cell bd -> json_rt (JArr bd) = JArr bd.
Proof.
  induction 1 as [|x r Hx _ IH]; [reflexivity |].
  simpl in IH |- *. injection IH as IH. rewrite IH.
  destruct Hx as [-> | [-> | ->]]; reflexivity.
Qed.

Lemma at_mark_board (bd : list jval) (i : nat) :
  Forall mark_cell bd -> at_ bd i = JUndef \/ mark_cell (at_ bd i).
Proof.
  intros H. unfold at_. destruct (nth_error bd i) as [v|] eqn:E; [| left; reflexivity].
  right. rewrite Forall_forall in H. apply H. eapply nth_error_In. exact E.
Qed.

Lemma calculateWinner_mark_board (bd : list jval) :
  Forall mark_cell bd -> mark_cell (calculateWinner bd).
Proof.
  intros H.
  destruct (calculateWinner_cases bd) as [[-> _] | (t & _ & Hw & ->)].
  - left. reflexivity.
  - pose proof (line_won_at_first bd t Hw) as Ht.
    destruct (at_mark_board bd (line_first t) H) as [E | E];
      [rewrite E in Ht; discriminate | exact E].
Qed.

(** X4: saving a consistent state whose board is 9 cells of null, "X" and
    "O" and loading back what the backend parsed from the request restores
    the board, the player to move, the winner, the draw flag and the move
    count; the status is recomputed from the board. *)
Theorem save_load_roundtrip (g : game) (now : string)
  (Hc : consistent g) (Hlen : List.length (board g) = 9)
  (Hcells : Forall mark_cell (board g)) :
  exists g'',
    apply_loaded false (json_rt (save_body g)) now = (Some g'', Some "Synced") /\
    board g'' = board g /\ nextPlayer g'' = nextPlayer g /\
    winner g'' = winner g /\ isDraw g'' = isDraw g /\ moves g'' = moves g /\
    status g'' = d_status (deriveStatus (board g) (nextPlayer g)).
Proof.
  destruct Hc as (_ & Hw & Hd & Hm).
  set (d := deriveStatus (board g) (nextPlayer g)) in *.
  assert (Hwm : mark_cell (winner g)).
  { rewrite Hw. unfold d, deriveStatus.
    destruct (truthy (calculateWinner (board g))); [| destruct (Z.eqb _ 9)];
      simpl; [apply calculateWinner_mark_board; exact Hcells | left; reflexivity ..]. }
  assert (Hrt : json_rt (save_body g) = save_body g).
  { unfold save_body. simpl json_rt.
    pose proof (json_rt_mark_board _ Hcells) as Hb. simpl in Hb.
    injection Hb as Hb. rewrite Hb.
    destruct Hwm as [E | [E | E]]; rewrite E; reflexivity. }
  rewrite Hrt.
  assert (Enp : (if String.eqb (player_str (nextPlayer g)) "O"
                 then PO else PX) = nextPlayer g)
    by (destruct (nextPlayer g); reflexivity).
  eexists. split; [| split; [| split; [| split; [| split; [| split]]]]].
  - unfold apply_loaded. simpl. rewrite Hlen. reflexivity.
  - reflexivity.
  - simpl. destruct (nextPlayer g); reflexivity.
  - simpl.
    rewrite Enp. fold d.
    destruct Hwm as [E | [E | E]]; rewrite E in *; simpl; congruence.
  - simpl.
    reflexivity.
  - reflexivity.
  - simpl.
    rewrite Enp. reflexivity.
Qed.

Definition g_one_move : game :=
  {| board := [JNull; JNull; JNull; JNull; JStr "X";
               JNull; JNull; JNull; JNull];
     nextPlayer := PO;
     status := "Next player: O";
     winner := JNull;
     isDraw := false;
     moves := 1;
     updatedAt := JStr "t1" |}.

Lemma save_load_roundtrip_witness :
  exists g'',
    apply_loaded false (json_rt (save_body g_one_move)) "t2"
      = (Some g'', Some "Synced") /\
    board g'' = board g_one_move /\ nextPlayer g'' = PO.
Proof.
  assert (Hc : consistent g_one_move).
  { unfold consistent. split; [intros [H _]; discriminate |].
    vm_compute. repeat split. }
  assert (Hcells : Forall mark_cell (board g_one_move)).
  { unfold mark_cell, is_mark.
    repeat apply Forall_cons; try apply Forall_nil; auto. }
  destruct (save_load_roundtrip g_one_move "t2" Hc eq_refl Hcells)
    as (g'' & H1 & H2 & H3 & _).
  exists g''. auto.
Defined.

(** X5: the button of a cell is enabled exactly when clicking it makes a
    move ([handleSquareClick] calls [setGame]); a click on a disabled
    button would be ignored anyway. *)
Theorem cell_disabled_iff_ignored (g : game) (idx : nat) (now : string) :
  cell_disabled g idx = false <->
  exists g', handleSquareClick g idx now = Some g'.
Proof.
  unfold cell_disabled, handleSquareClick.
  destruct (canPlay g); simpl;
    [destruct (truthy (at_ (board g) idx)); simpl |];
    split; intros H; try discriminate;
    try (destruct H; discriminate); eauto.
Qed.

(** ** Further properties: states reached by play *)

Lemma js_set_length (l : list jval) (i : nat) (v : jval) :
  i < List.length l -> List.length (js_set l i v) = List.length l.
Proof.
  revert i. induction l as [|x r IH]; intros [|i] Hi; simpl in *; try lia.
  rewrite IH; [reflexivity | lia].
Qed.

Lemma js_set_Forall (P : jval -> Prop) (l : list jval) (i : nat) (v : jval) :
  i < List.length l -> Forall P l -> P v -> Forall P (js_set l i v).
Proof.
  revert i. induction l as [|x r IH]; intros [|i] Hi Hl Hv; simpl in *; try lia;
    inversion Hl; subst; constructor; auto.
  apply IH; auto. lia.
Qed.

Lemma js_set_filter (f : jval -> bool) (l : list jval) (i : nat) (v : jval) :
  i < List.length l ->
  (List.length (filter f (js_set l i v)) + (if f (at_ l i) then 1 else 0) =
   List.length (filter f l) + (if f v then 1 else 0))%nat.
Proof.
  revert i. induction l as [|x r IH]; intros [|i] Hi; simpl in *; try lia.
  - unfold at_; simpl. destruct (f v), (f x); simpl; lia.
  - specialize (IH i ltac:(lia)). unfold at_ in *; simpl.
    destruct (f x); simpl; lia.
Qed.

Lemma strict_eq_str (v : jval) (s : string) :
  strict_eq v (JStr s) = true -> v = JStr s.
Proof.
  destruct v; simpl; try discriminate.
  intros H. apply String.eqb_eq in H. subst. reflexivity.
Qed.

(** After a mark is written into a board with no won line, every won line
    holds that mark. *)
Lemma line_won_after_set (bd : list jval) (i : nat) (m : string) (t : nat * nat * nat) :
  Forall (fun t' => line_won bd t' = false) lines -> In t lines ->
  line_won (js_set bd i (JStr m)) t = true ->
  at_ (js_set bd i (JStr m)) (line_first t) = JStr m.
Proof.
  intros Hall Hin Hw.
  rewrite Forall_forall in Hall. specialize (Hall t Hin).
  destruct t as [[a b] c]. simpl in *.
  destruct (Nat.eq_dec a i) as [-> | Ha]; [apply at_js_set_same |].
  destruct (Nat.eq_dec b i) as [-> | Hb].
  - rewrite at_js_set_same in Hw.
    apply andb_true_iff in Hw as [Hw _]. apply andb_true_iff in Hw as [_ Hw].
    apply strict_eq_str. exact Hw.
  - destruct (Nat.eq_dec c i) as [-> | Hc].
    + rewrite at_js_set_same in Hw.
      apply andb_true_iff in Hw as [_ Hw]. apply strict_eq_str. exact Hw.
    + rewrite (at_js_set_other _ _ _ _ Ha), (at_js_set_other _ _ _ _ Hb),
        (at_js_set_other _ _ _ _ Hc) in Hw.
      congruence.
Qed.

Lemma no_winner_no_line (g : game) :
  consistent g -> truthy (winner g) = false ->
  Forall (fun t => line_won (board g) t = false) lines.
Proof.
  intros (_ & Hw & _) Hn.
  destruct (calculateWinner_cases (board g)) as [[_ H] | (t & _ & Hwt & Hv)];
    [exact H |].
  exfalso. rewrite Hw in Hn. unfold deriveStatus in Hn.
  rewrite Hv, (line_won_at_first _ _ Hwt) in Hn. simpl in Hn.
  rewrite (line_won_at_first _ _ Hwt) in Hn. discriminate.
Qed.

(** What every state reached by play satisfies. *)
Definition played_inv (g : game) : Prop :=
  consistent g /\
  List.length (board g) = 9 /\
  Forall mark_cell (board g) /\
  status g = d_status (deriveStatus (board g) (nextPlayer g)) /\
  count_mark (board g) PX =
    (count_mark (board g) PO + match nextPlayer g with PX => 0 | PO => 1 end)%nat /\
  (forall t, In t lines -> line_won (board g) t = true ->
             at_ (board g) (line_first t) = calculateWinner (board g)).

Lemma played_inv_init (now : string) : played_inv (createEmptyGameState now).
Proof.
  split; [apply createEmptyGameState_consistent |].
  split; [reflexivity |]. split.
  { unfold mark_cell. repeat apply Forall_cons; try apply Forall_nil; auto. }
  split; [reflexivity |]. split; [reflexivity |].
  intros t Ht Hw. simpl in Ht.
  repeat (destruct Ht as [<- | Ht]; [discriminate Hw |]). destruct Ht.
Qed.

Lemma played_inv_click (g g' : game) (i : nat) (now : string) :
  played_inv g -> i < List.length (board g) ->
  handleSquareClick g i now = Some g' -> played_inv g'.
Proof.
  intros (Hc & Hlen & Hcells & _ & Hcnt & _) Hi Hclick.
  pose proof (handleSquareClick_consistent g g' i now Hclick) as Hc'.
  unfold handleSquareClick in Hclick.
  destruct (canPlay g) eqn:Hcp; [| discriminate]. simpl in Hclick.
  destruct (truthy (at_ (board g) i)) eqn:Hcell; [discriminate |].
  injection Hclick as <-.
  assert (Hwin : truthy (winner g) = false).
  { unfold canPlay in Hcp. apply andb_true_iff in Hcp as [H _].
    apply negb_true_iff. exact H. }
  pose proof (no_winner_no_line g Hc Hwin) as Hall.
  assert (Hnull : at_ (board g) i = JNull).
  { unfold at_ in Hcell |- *.
    destruct (nth_error (board g) i) as [v|] eqn:En.
    - rewrite Forall_forall in Hcells.
      destruct (Hcells v (nth_error_In _ _ En)) as [-> | [-> | ->]];
        [reflexivity | discriminate ..].
    - apply nth_error_None in En. lia. }
  unfold played_inv. cbn [board nextPlayer status].
  split; [exact Hc' |].
  split; [rewrite js_set_length; assumption |].
  split.
  { apply js_set_Forall; [exact Hi | exact Hcells |].
    right. destruct (nextPlayer g); [left | right]; reflexivity. }
  split; [reflexivity |].
  split.
  - pose proof (js_set_filter (fun v => strict_eq v (JStr "X")) (board g) i
                  (JStr (player_str (nextPlayer g))) Hi) as HX.
    pose proof (js_set_filter (fun v => strict_eq v (JStr "O")) (board g) i
                  (JStr (player_str (nextPlayer g))) Hi) as HO.
    rewrite Hnull in HX, HO. unfold count_mark in *.
    destruct (nextPlayer g); simpl in *; lia.
  - intros t Ht Hw.
    rewrite (line_won_after_set _ _ _ _ Hall Ht Hw). symmetry.
    destruct (calculateWinner_cases
                (js_set (board g) i (JStr (player_str (nextPlayer g)))))
      as [[_ H0] | (t0 & Ht0 & Hw0 & ->)].
    + rewrite Forall_forall in H0. rewrite (H0 t Ht) in Hw. discriminate.
    + apply line_won_after_set; assumption.
Qed.

Lemma played_invariant (g : game) : played g -> played_inv g.
Proof.
  induction 1 as [now | g i now g' _ IH Hi Hc | g now _ _].
  - apply played_inv_init.
  - exact (played_inv_click g g' i now IH Hi Hc).
  - apply played_inv_init.
Qed.

Lemma played_click_state (g : game) (i : nat) (now : string) :
  played g -> i < List.length (board g) -> played (click_state g i now).
Proof.
  intros Hp Hi. unfold click_state.
  destruct (handleSquareClick g i now) as [g'|] eqn:E; [| exact Hp].
  exact (P_click g i now g' Hp Hi E).
Qed.

Lemma filter_length_full (f : jval -> bool) (l : list jval) :
  List.length (filter f l) = List.length l <-> Forall (fun x => f x = true) l.
Proof.
  induction l as [|x r IH]; simpl; [split; auto |].
  pose proof (filter_length_le f r) as Hle.
  destruct (f x) eqn:Ef; simpl.
  - split.
    + intros H. constructor; [exact Ef | apply IH; lia].
    + intros H. inversion H as [|y r' Hy Hr]; subst. f_equal. apply IH. exact Hr.
  - split; [lia | intros H; inversion H; congruence].
Qed.

(** The game of the spec's example: X plays 0, O plays 4, X plays 1,
    O plays 3, X plays 2. *)
Definition scenario : game :=
  fold_left (fun g i => click_state g i "t") [0; 4; 1; 3; 2]
    (createEmptyGameState "t").

Lemma played_scenario : played scenario.
Proof.
  unfold scenario. simpl.
  repeat (apply played_click_state; [| vm_compute; lia]).
  apply P_init.
Qed.

(** X6: in every state reached by play (clicks on the rendered cells and
    resets, from the initial state) the board has 9 cells, each null, "X"
    or "O", and there are as many "X" as "O" when "X" is to move and one
    more "X" when "O" is to move. *)
Theorem played_board_shape (g : game) (Hp : played g) :
  List.length (board g) = 9 /\
  Forall mark_cell (board g) /\
  count_mark (board g) PX =
    (count_mark (board g) PO + match nextPlayer g with PX => 0 | PO => 1 end)%nat.
Proof.
  destruct (played_invariant g Hp) as (_ & H1 & H2 & _ & H3 & _).
  auto.
Qed.

Lemma played_board_shape_witness :
  count_mark (board scenario) PX = 3%nat.
Proof.
  destruct (played_board_shape scenario played_scenario) as (_ & _ & H).
  rewrite H. vm_compute. reflexivity.
Defined.

(** X7: on a board reached by play every line of three equal marks holds
    the same mark, so calculateWinner returns the mark of any such line
    (the claim C1 holds on these boards). *)
Theorem played_line_winner (g : game) (a b c : nat) (v : jval)
  (Hp : played g) (Hin : In (a, b, c) lines) (Hm : is_mark v)
  (Ha : at_ (board g) a = v) (Hb : at_ (board g) b = v)
  (Hc : at_ (board g) c = v) :
  calculateWinner (board g) = v.
Proof.
  destruct (played_invariant g Hp) as (_ & _ & _ & _ & _ & Hl).
  rewrite <- (Hl (a, b, c) Hin (line_won_of_mark _ a b c v Hm Ha Hb Hc)).
  exact Ha.
Qed.

Lemma played_line_winner_witness :
  calculateWinner (board scenario) = JStr "X".
Proof.
  apply (played_line_winner scenario 0 1 2 (JStr "X") played_scenario);
    [simpl; auto | left; reflexivity | vm_compute; reflexivity ..].
Defined.

(** X8: in every state reached by play the status text is the one
    deriveStatus computes from the board ("Winner: ..", "Draw" or "Next
    player: .."), and the status pill reads "winner" when a line is won,
    "draw" when no line is won and all cells are filled, "playing"
    otherwise. *)
Theorem played_status (g : game) (Hp : played g) :
  status g = d_status (deriveStatus (board g) (nextPlayer g)) /\
  status_pill_state g =
    (if truthy (calculateWinner (board g)) then "winner"
     else if Nat.eqb (List.length (filter truthy (board g))) 9 then "draw"
     else "playing").
Proof.
  destruct (played_invariant g Hp) as ((_ & Hw & Hd & _) & _ & _ & Hs & _).
  split; [exact Hs |].
  unfold status_pill_state. rewrite Hw, Hd. unfold deriveStatus.
  destruct (truthy (calculateWinner (board g))) eqn:E; simpl; [rewrite E; reflexivity |].
  destruct (Nat.eqb (List.length (filter truthy (board g))) 9) eqn:E9.
  - apply Nat.eqb_eq in E9. rewrite E9. reflexivity.
  - assert (Z.eqb (Z.of_nat (List.length (filter truthy (board g)))) 9 = false)
      as ->.
    { apply Z.eqb_neq. apply Nat.eqb_neq in E9. lia. }
    reflexivity.
Qed.

Lemma played_status_witness :
  status scenario = "Winner: X" /\ status_pill_state scenario = "winner".
Proof.
  destruct (played_status scenario played_scenario) as [H1 H2].
  rewrite H1, H2. vm_compute. split; reflexivity.
Defined.

(** X9: in every state reached by play the game is over ([canPlay] false,
    all cell buttons disabled) exactly when a line is won or all 9 cells
    are filled. *)
Theorem played_game_over (g : game) (Hp : played g) :
  canPlay g = false <->
  truthy (calculateWinner (board g)) = true \/
  Forall (fun v => truthy v = true) (board g).
Proof.
  destruct (played_invariant g Hp) as ((_ & Hw & Hd & _) & Hlen & _).
  rewrite <- (filter_length_full truthy), Hlen.
  unfold canPlay. rewrite Hw, Hd. unfold deriveStatus.
  destruct (truthy (calculateWinner (board g))) eqn:E; simpl;
    [rewrite E; split; auto |].
  destruct (Z.eqb (Z.of_nat (List.length (filter truthy (board g)))) 9) eqn:E9;
    simpl; split; intros H; auto.
  - right. apply Z.eqb_eq in E9. lia.
  - destruct H as [H | H]; [discriminate |].
    rewrite H in E9. discriminate.
Qed.

Lemma played_game_over_witness : canPlay scenario = false.
Proof.
  apply (played_game_over scenario played_scenario).
  left. reflexivity.
Defined.

(** X10: from a state whose [moves] counts the non-empty cells of its
    board, a click on a cell inside the board that makes a move raises
    [moves] by exactly one. *)
Theorem moves_increment (g g' : game) (i : nat) (now : string)
  (Hm : moves g = Z.of_nat (List.length (filter truthy (board g))))
  (Hi : i < List.length (board g))
  (Hclick : handleSquareClick g i now = Some g') :
  moves g' = (moves g + 1)%Z.
Proof.
  unfold handleSquareClick in Hclick.
  destruct (negb (canPlay g)); [discriminate |].
  destruct (truthy (at_ (board g) i)) eqn:Hcell; [discriminate |].
  injection Hclick as <-.
  set (nb := js_set (board g) i (JStr (player_str (nextPlayer g)))).
  set (np := if String.eqb (player_str (nextPlayer g)) "X" then PO else PX).
  destruct (deriveStatus_facts nb np) as [_ Hm'].
  pose proof (js_set_filter truthy (board g) i
                (JStr (player_str (nextPlayer g))) Hi) as H.
  rewrite Hcell in H.
  assert (Ht : truthy (JStr (player_str (nextPlayer g))) = true)
    by (destruct (nextPlayer g); reflexivity).
  rewrite Ht in H. cbv iota in H. fold nb in H.
  simpl. fold nb np. rewrite Hm', Hm. lia.
Qed.

(** A loaded state that stores [winner: false]: not consistent, but its
    [moves] counts its cells. *)
Definition g_loaded_false_winner : game :=
  {| board := [JNull; JNull; JNull; JNull; JStr "X";
               JNull; JNull; JNull; JNull];
     nextPlayer := PO;
     status := "Next player: O";
     winner := JBool false;
     isDraw := false;
     moves := 1;
     updatedAt := JStr "t1" |}.

Lemma moves_increment_witness :
  moves (click_state g_loaded_false_winner 0 "t2") = 2%Z.
Proof.
  unfold click_state.
  destruct (handleSquareClick g_loaded_false_winner 0 "t2") as [g'|] eqn:E;
    [| discriminate].
  rewrite (moves_increment g_loaded_false_winner g' 0 "t2" eq_refl
             ltac:(simpl; lia) E).
  reflexivity.
Defined.

